(** * CuraEngine: progress reporting and plugin slot proxies

    A shallow embedding of
    - [src/progress/Progress.cpp] / [include/progress/Progress.h]
      (module [Progress]), and
    - [include/plugins/slotproxy.h] (module [Plugins]),
    followed by the properties established about them.

    Doubles are IEEE binary64 values (Rocq's primitive floats), [int] and
    [size_t] values are integers in [Z] and [N], [std::optional<T>] is
    [option T], and a nullable pointer is an [option] as well.  Output
    (log lines, progress messages) is collected as a list of events, in
    the order the code produces it. *)

From Stdlib Require Import ZArith NArith List Bool Lia String Floats.
Import ListNotations.

Set Warnings "-inexact-float".

(* ================================================================== *)
(** * Part I: definitions *)
(* ================================================================== *)

Module Progress.

Local Open Scope float_scope.

(** [static constexpr size_t N_PROGRESS_STAGES = 7;] *)
Definition N_PROGRESS_STAGES : nat := 7.

(** [enum class Stage : unsigned int] *)
Inductive Stage : Set :=
| START | SLICING | PARTS | INSET_SKIN | SUPPORT | EXPORT | FINISH.

(** [static_cast<size_t>(stage)] *)
Definition stage_value (s : Stage) : nat :=
  match s with
  | START => 0 | SLICING => 1 | PARTS => 2 | INSET_SKIN => 3
  | SUPPORT => 4 | EXPORT => 5 | FINISH => 6
  end.

Definition times : list float :=
  [ 0.0; 5.269; 1.533; 71.811; 51.009; 154.62; 0.1 ].

Definition names : list string :=
  [ "start"; "slice"; "layerparts"; "inset+skin"; "support"; "export"; "process" ]%string.

(** [struct LayerIndex], of which the code reads the [int] member [value]. *)
Record LayerIndex : Set := { value : Z }.

(** [TimeKeeper::RegisteredTime], with the two members the code reads. *)
Record RegisteredTime : Set := { stage : string; duration : float }.

Definition RegisteredTimes : Set := list RegisteredTime.

(** The static data members of [class Progress]. *)
Record statics : Set := {
  accumulated_times : list float;
  total_timing : float;
  first_skipped_layer : option LayerIndex
}.

(** Their initialisers in Progress.cpp: [{ -1 }] sets the first element
    of the array and value-initialises the others. *)
Definition initial : statics :=
  {| accumulated_times := [ -1; 0; 0; 0; 0; 0; 0 ];
     total_timing := -1;
     first_skipped_layer := None |}.

(** What the functions send out: one constructor per [spdlog::info] format
    string and one for [Communication::sendProgress], each carrying the
    values that are formatted or sent. *)
Inductive output : Set :=
| info_accomplished (name : string) (seconds : float)
    (* "Progress: {} accomplished in {:03.3f}s" *)
| info_starting (name : string)
    (* "Starting {}..." *)
| info_skipped (first last : LayerIndex)
    (* "Skipped time reporting for layers [{}...{}]" *)
| sendProgress (percentage : float)
| info_layer_export (layer : LayerIndex) (total_time : float)
    (* "+ Layer export [{}] accomplished in {:03.3f}s" *)
| info_stage_time (more_follow : bool) (name : string) (padding : nat) (seconds : float).
    (* "{}-- {}:{} {:03.3f}s"; more_follow selects the branch corner *)

(** [std::array::at]: every index used is the value of a [Stage], hence
    below [N_PROGRESS_STAGES]; the default is never returned. *)
Definition at_ {A : Type} (a : list A) (i : nat) (d : A) : A := nth i a d.

(** [static_cast<double>] of an [int]. *)
Definition double_of_int (z : Z) : float :=
  if (z <? 0)%Z then - of_uint63 (Uint63.of_Z (- z)) else of_uint63 (Uint63.of_Z z).

(** An [int] holds 32 bits in two's complement.  A sum of two [int]s that
    leaves the range comes back into it from the other end: the standard
    leaves that case undefined, the compiled code wraps. *)
Definition int_wrap (z : Z) : Z :=
  let r := (z mod 2 ^ 32)%Z in
  if (r <? 2 ^ 31)%Z then r else (r - 2 ^ 32)%Z.

(** [a + b] on [int]s. *)
Definition int_add (a b : Z) : Z := int_wrap (a + b).

(** Conversion of a [size_t] to [int] (two's complement, 32 bits). *)
Definition int_of_size_t (n : N) : Z :=
  let r := (Z.of_N n mod 2 ^ 32)%Z in
  if (r <? 2 ^ 31)%Z then r else (r - 2 ^ 32)%Z.

(** [Progress::calcOverallProgress]; the two [assert]s are compiled out
    in a release build and are not part of the value. *)
Definition calcOverallProgress (p : statics) (s : Stage) (stage_progress : float) : float :=
  (at_ (accumulated_times p) (stage_value s) 0
   + stage_progress * at_ times (stage_value s) 0) / total_timing p.

(** The loop of [Progress::init], over the stages that remain. *)
Fixpoint init_loop (ts : list float) (accumulated_time : float) : list float * float :=
  match ts with
  | [] => ([], accumulated_time)
  | t :: ts' =>
      let (rest, total) := init_loop ts' (accumulated_time + t) in
      (accumulated_time :: rest, total)
  end.

(** [Progress::init] *)
Definition init (p : statics) : statics :=
  let (acc, total) := init_loop times 0 in
  {| accumulated_times := acc;
     total_timing := total;
     first_skipped_layer := first_skipped_layer p |}.

(** [Progress::messageProgress]: the percentage handed to the
    communication channel.  The two progress arguments are [int]s. *)
Definition messageProgress (p : statics) (s : Stage)
    (progress_in_stage progress_in_stage_max : Z) : output :=
  sendProgress
    (calcOverallProgress p s
       (double_of_int progress_in_stage / double_of_int progress_in_stage_max)).

Section WithTimeKeeper.

(** [utils/gettime.h] is not among the sources at hand: a [TimeKeeper] is
    any type with a [restart] that returns the elapsed seconds and leaves
    the stopwatch restarted. *)
Variable TimeKeeper : Type.
Variable restart : TimeKeeper -> float * TimeKeeper.

(** [Progress::messageProgressStage].  The pointer argument is an
    [option]; the result is the static data, the stopwatch behind the
    pointer, and the lines logged. *)
Definition messageProgressStage (p : statics) (s : Stage) (time_keeper : option TimeKeeper)
    : statics * option TimeKeeper * list output :=
  match time_keeper with
  | Some tk =>
      let (elapsed, tk') := restart tk in
      let accomplished :=
        if (0 <? stage_value s)%nat
        then [ info_accomplished (at_ names (stage_value s - 1) EmptyString) elapsed ]
        else [] in
      let starting :=
        if (stage_value s <? stage_value FINISH)%nat
        then [ info_starting (at_ names (stage_value s) EmptyString) ]
        else [] in
      (p, Some tk', accomplished ++ starting)
  | None => (p, None, [])
  end.

End WithTimeKeeper.

(** [std::max_element] by [stage.size()], then [->stage.size()]:
    the largest name length, or nothing for an empty range. *)
Definition max_stage_size (stages : RegisteredTimes) : option nat :=
  match stages with
  | [] => None
  | t :: ts => Some (fold_left (fun m u => Nat.max m (String.length (stage u))) ts
                                (String.length (stage t)))
  end.

(** The [for] loop over [stages | ranges::views::enumerate]. *)
Fixpoint stage_lines (size padding index : nat) (stages : RegisteredTimes) : list output :=
  match stages with
  | [] => []
  | t :: ts =>
      info_stage_time (index <? size - 1)%nat (stage t)
                      (padding - String.length (stage t)) (duration t)
      :: stage_lines size padding (S index) ts
  end.

(** [Progress::messageProgressLayer] *)
Definition messageProgressLayer (p : statics) (layer_nr : LayerIndex) (total_layers : N)
    (total_time : float) (stages : RegisteredTimes) (skip_threshold : float)
    : statics * list output :=
  if total_time <? skip_threshold then
    match first_skipped_layer p with
    | None =>
        ({| accumulated_times := accumulated_times p;
            total_timing := total_timing p;
            first_skipped_layer := Some layer_nr |}, [])
    | Some _ => (p, [])
    end
  else
    let (p1, skipped) :=
      match first_skipped_layer p with
      | Some first =>
          ({| accumulated_times := accumulated_times p;
              total_timing := total_timing p;
              first_skipped_layer := None |},
           [ info_skipped first layer_nr ])
      | None => (p, [])
      end in
    let progress :=
      messageProgress p1 EXPORT (int_add (Z.max (value layer_nr) 0) 1)
                      (int_of_size_t total_layers) in
    let details :=
      match max_stage_size stages with
      | Some padding => stage_lines (List.length stages) padding 0 stages
      | None => []
      end in
    (p1, skipped ++ [ progress; info_layer_export layer_nr total_time ] ++ details).

(** The default argument [skip_threshold = 0.1] of the declaration. *)
Definition default_skip_threshold : float := 0.1.

(** One call of [messageProgressLayer], as its arguments. *)
Record layer_report : Set := {
  layer_nr : LayerIndex;
  total_layers : N;
  total_time : float;
  stages : RegisteredTimes;
  skip_threshold : float
}.

Definition report (p : statics) (r : layer_report) : statics * list output :=
  messageProgressLayer p (layer_nr r) (total_layers r) (total_time r) (stages r)
                       (skip_threshold r).

(** A sequence of calls, oldest first: the static data after the last. *)
Definition report_all (p : statics) (rs : list layer_report) : statics :=
  fold_left (fun q r => fst (report q r)) rs p.

(** A layer is skipped when its time is below the threshold. *)
Definition skipped (r : layer_report) : bool := total_time r <? skip_threshold r.

(** Read off the call history alone: the calls at the end of the history
    that are all skipped (the current run), oldest first ... *)
Fixpoint skipped_prefix (newest_first : list layer_report) : list layer_report :=
  match newest_first with
  | r :: rs => if skipped r then r :: skipped_prefix rs else []
  | [] => []
  end.

Definition current_run (history : list layer_report) : list layer_report :=
  rev (skipped_prefix (rev history)).

(** ... and the layer of the earliest call of that run, if there is one. *)
Definition earliest_skipped (history : list layer_report) : option LayerIndex :=
  option_map layer_nr (hd_error (current_run history)).

(** Two kinds of report for worked examples: a layer that took a quarter
    of a second and one that took a hundredth, against the default
    threshold. *)
Definition slow (n : Z) : layer_report :=
  {| layer_nr := {| value := n |}; total_layers := 5; total_time := 0.25;
     stages := [ {| stage := "walls"; duration := 0.2 |};
                 {| stage := "infill"; duration := 0.05 |} ];
     skip_threshold := default_skip_threshold |}.

Definition fast (n : Z) : layer_report :=
  {| layer_nr := {| value := n |}; total_layers := 5; total_time := 0.01;
     stages := []; skip_threshold := default_skip_threshold |}.

(** The enumerator that follows [s] in [enum class Stage]; [FINISH] is
    the last. *)
Definition next_stage (s : Stage) : option Stage :=
  match s with
  | START => Some SLICING | SLICING => Some PARTS | PARTS => Some INSET_SKIN
  | INSET_SKIN => Some SUPPORT | SUPPORT => Some EXPORT | EXPORT => Some FINISH
  | FINISH => None
  end.

(** [names.at(static_cast<size_t>(stage))] *)
Definition stage_name (s : Stage) : string := at_ names (stage_value s) EmptyString.

(** A sequence of calls, oldest first: everything that was sent out. *)
Fixpoint report_all_output (p : statics) (rs : list layer_report) : list output :=
  match rs with
  | [] => []
  | r :: rest => snd (report p r) ++ report_all_output (fst (report p r)) rest
  end.

(** Kinds of output. *)
Definition is_info_skipped (o : output) : bool :=
  match o with info_skipped _ _ => true | _ => false end.

Definition is_sendProgress (o : output) : bool :=
  match o with sendProgress _ => true | _ => false end.

Definition is_info_layer_export (o : output) : bool :=
  match o with info_layer_export _ _ => true | _ => false end.

(** The per-stage lines among some output, as
    (branch corner, name, padding, seconds). *)
Fixpoint stage_time_lines (out : list output) : list (bool * string * nat * float) :=
  match out with
  | [] => []
  | info_stage_time more name padding seconds :: rest =>
      (more, name, padding, seconds) :: stage_time_lines rest
  | _ :: rest => stage_time_lines rest
  end.

(** The per-stage lines of a report, as the code builds them. *)
Definition details (sts : RegisteredTimes) : list output :=
  match max_stage_size sts with
  | Some padding => stage_lines (List.length sts) padding 0 sts
  | None => []
  end.

(** The width of the widest stage name of a layer's timings. *)
Definition widest_name (stages : RegisteredTimes) : nat :=
  fold_right (fun t m => Nat.max (String.length (stage t)) m) 0%nat stages.

End Progress.

Module Plugins.

(** What a call yields: a value, or a failure handed to the caller (a C++
    exception or an error value; the proxy treats both alike, it
    inspects neither). *)
Inductive result (E A : Type) : Type :=
| Ok (a : A)
| Err (e : E).
Arguments Ok {E A} a.
Arguments Err {E A} e.

(** The roles a [SlotProxy] is instantiated with.  [plugins/pluginproxy.h]
    is not among the sources at hand, so the client type is a parameter
    with the two operations slotproxy.h uses: construction from a channel
    and invocation.  Both run against the world outside the engine (the
    plugin process, the transport) and may fail; invocation is a
    non-const member and may change the client.  [plugin_valid] is the
    Validation Outcome a client carries ([Validator] is
    [std::convertible_to<bool>]).  [Default] is the [auto Default]
    template argument. *)
Class Slot (World Channel Plugin Args Res Error : Type) : Type := {
  plugin_construct : Channel -> World -> World * result Error Plugin;
  plugin_invoke : Plugin -> Args -> World -> World * Plugin * result Error Res;
  plugin_valid : Plugin -> bool;
  Default : Args -> World -> World * result Error Res
}.

(** [class SlotProxy]: its one data member,
    [std::optional<PluginProxy<...>> plugin_{ std::nullopt }]. *)
Record SlotProxy (Plugin : Type) : Type := { plugin_ : option Plugin }.
Arguments plugin_ {Plugin} s.
Arguments Build_SlotProxy {Plugin} plugin_.

Section SlotProxy.

Context {World Channel Plugin Args Res Error : Type}.
Context {slot : Slot World Channel Plugin Args Res Error}.

(** [constexpr SlotProxy() noexcept = default;] *)
Definition SlotProxy_default : SlotProxy Plugin := {| plugin_ := None |}.

(** [SlotProxy(std::shared_ptr<grpc::Channel> channel) : plugin_{ std::move(channel) }]:
    the client is constructed in place; when its construction fails no
    proxy comes into being. *)
Definition SlotProxy_channel (channel : Channel) (w : World)
    : World * result Error (SlotProxy Plugin) :=
  match plugin_construct channel w with
  | (w', Ok p) => (w', Ok {| plugin_ := Some p |})
  | (w', Err e) => (w', Err e)
  end.

(** [plugin_.has_value()] *)
Definition has_value (s : SlotProxy Plugin) : bool :=
  match plugin_ s with Some _ => true | None => false end.

(** The branch [std::invoke(plugin_.value(), args...)]. *)
Definition forwarded (p : Plugin) (args : Args) (w : World)
    : World * SlotProxy Plugin * result Error Res :=
  let '(w', p', r) := plugin_invoke p args w in (w', {| plugin_ := Some p' |}, r).

(** The branch [std::invoke(Default, args...)]. *)
Definition defaulted (s : SlotProxy Plugin) (args : Args) (w : World)
    : World * SlotProxy Plugin * result Error Res :=
  let (w', r) := Default args w in (w', s, r).

(** [SlotProxy::operator()]: the world and the proxy after the call, and
    what the call returns. *)
Definition call (s : SlotProxy Plugin) (args : Args) (w : World)
    : World * SlotProxy Plugin * result Error Res :=
  match plugin_ s with
  | Some p => forwarded p args w
  | None => defaulted s args w
  end.

Definition world_after {A B : Type} (x : World * A * B) : World := fst (fst x).
Definition proxy_after {A B : Type} (x : A * SlotProxy Plugin * B) : SlotProxy Plugin :=
  snd (fst x).
Definition returned {A B : Type} (x : A * B * result Error Res) : result Error Res := snd x.

(** Successive invocations of one proxy, oldest first. *)
Fixpoint calls (s : SlotProxy Plugin) (argss : list Args) (w : World)
    : World * SlotProxy Plugin * list (result Error Res) :=
  match argss with
  | [] => (w, s, [])
  | a :: rest =>
      let '(w1, s1, r) := call s a w in
      let '(w2, s2, rs) := calls s1 rest w1 in
      (w2, s2, r :: rs)
  end.

(** The Default Behavior alone, run on the same arguments in turn. *)
Fixpoint defaults (argss : list Args) (w : World) : World * list (result Error Res) :=
  match argss with
  | [] => (w, [])
  | a :: rest =>
      let (w1, r) := Default a w in
      let (w2, rs) := defaults rest w1 in
      (w2, r :: rs)
  end.



(** The Remote Call Clients a proxy holds. *)
Definition clients (s : SlotProxy Plugin) : list Plugin :=
  match plugin_ s with Some p => [ p ] | None => [] end.

(** The client alone, invoked on the arguments in turn; each invocation
    works on the client as the one before left it. *)
Fixpoint client_runs (p : Plugin) (argss : list Args) (w : World)
    : World * Plugin * list (result Error Res) :=
  match argss with
  | [] => (w, p, [])
  | a :: rest =>
      let '(w1, p1, r) := plugin_invoke p a w in
      let '(w2, p2, rs) := client_runs p1 rest w1 in
      (w2, p2, r :: rs)
  end.

End SlotProxy.

End Plugins.

Module RemoteCall.

Import Plugins.

(** Call-time transport failures (specification, section 7 (b)). *)
Inductive TransportError : Set := ChannelClosed | Timeout | Malformed.

(** The failures a binding or a call can end in. *)
Inductive RpcError : Set :=
| ValidationRejected
| Transport (e : TransportError).

Section Client.

Context {Channel Caps Args Res Request Response : Type}.

(** What happens outside the engine and what the model records of it. *)
Inductive Event : Type :=
| validated (c : Channel) (outcome : bool)
| remote_call (c : Channel) (request : Request)
| default_run (args : Args).

(** The world a client runs against: what the plugin behind each channel
    advertises at the moment, how the transport answers a request at the
    moment, and the events so far, newest first.  Plugins and transport
    change on their own between two calls of the engine; the engine's
    operations only add to [log]. *)
Record World : Type := {
  advertised : Channel -> Caps;
  exchange : Channel -> Request -> result TransportError Response;
  log : list Event
}.

Definition record (e : Event) (w : World) : World :=
  {| advertised := advertised w; exchange := exchange w; log := e :: log w |}.

(** The slot's Capability Validator, request converter, response
    converter and Default Behavior. *)
Variable Validator : Caps -> bool.
Variable toWire : Args -> Request.
Variable fromWire : Response -> Res.
Variable default_behavior : Args -> Res.

(** Modelled from the spec: the Remote Call Client ([PluginProxy]) of
    plugins/pluginproxy.h, which is not among the sources.  It owns one
    channel and carries the Validation Outcome, computed once when the
    client is constructed and kept for its lifetime (sections 3, 4.2). *)
Record PluginProxy : Type := { channel_ : Channel; valid_ : bool }.

(** Modelled from the spec: construction of the client, missing with
    plugins/pluginproxy.h.  "Construction validates the channel via the
    Capability Validator before the client is considered usable;
    construction fails (client not created, binding rejected) if
    validation is negative" (section 4.2). *)
Definition PluginProxy_construct (c : Channel) (w : World)
    : World * result RpcError PluginProxy :=
  let outcome := Validator (advertised w c) in
  let w' := record (validated c outcome) w in
  if outcome
  then (w', Ok {| channel_ := c; valid_ := outcome |})
  else (w', Err ValidationRejected).

(** Modelled from the spec: the client's call, missing with
    plugins/pluginproxy.h.  "Convert native arguments to a Wire Request
    using the slot's converter; issue a blocking remote invocation over
    the bound channel; on success, convert the Wire Response back to the
    native result type and return it; on transport failure ... return a
    typed RPC error" (section 4.2). *)
Definition PluginProxy_invoke (p : PluginProxy) (args : Args) (w : World)
    : World * PluginProxy * result RpcError Res :=
  let request := toWire args in
  let w' := record (remote_call (channel_ p) request) w in
  match exchange w (channel_ p) request with
  | Ok response => (w', p, Ok (fromWire response))
  | Err e => (w', p, Err (Transport e))
  end.

(** The Default Behavior as a callable: it runs in the engine and
    returns a value. *)
Definition Default_run (args : Args) (w : World) : World * result RpcError Res :=
  (record (default_run args) w, Ok (default_behavior args)).

#[local] Instance modelled_slot : Slot World Channel PluginProxy Args Res RpcError :=
  {| plugin_construct := PluginProxy_construct;
     plugin_invoke := PluginProxy_invoke;
     plugin_valid := valid_;
     Default := Default_run |}.

(** Modelled from the spec: [bind(channel)] of section 4.1, which
    slotproxy.h does not declare; a slot is bound by constructing a proxy
    from the channel and putting it in the place of the old one.  A bind
    that fails is reported and "the slot remains on its previous binding
    (or Default Behavior if none existed)" (section 7 (a)). *)
Definition bind (s : SlotProxy PluginProxy) (c : Channel) (w : World)
    : World * SlotProxy PluginProxy * result RpcError unit :=
  match SlotProxy_channel c w with
  | (w', Ok s') => (w', s', Ok tt)
  | (w', Err e) => (w', s, Err e)
  end.

(** Modelled from the spec: [unbind()] of section 4.1, which slotproxy.h
    does not declare ("removes the binding, reverting immediately to
    Default Behavior").  As [bind] puts a proxy constructed from the
    channel in the place of the old one, [unbind] puts a
    default-constructed proxy there. *)
Definition unbind (s : SlotProxy PluginProxy) : SlotProxy PluginProxy :=
  SlotProxy_default.

(** The operations on a slot (section 4.1). *)
Inductive operation : Type :=
| do_bind (c : Channel)
| do_unbind
| do_invoke (args : Args).

(** One operation: the world and the slot's proxy after it. *)
Definition step (op : operation) (s : SlotProxy PluginProxy) (w : World)
    : World * SlotProxy PluginProxy :=
  match op with
  | do_bind c => fst (bind s c w)
  | do_unbind => (w, unbind s)
  | do_invoke args => fst (call s args w)
  end.

(** Operations in turn, oldest first. *)
Fixpoint run (ops : list operation) (s : SlotProxy PluginProxy) (w : World)
    : World * SlotProxy PluginProxy :=
  match ops with
  | [] => (w, s)
  | op :: rest => let (w', s') := step op s w in run rest s' w'
  end.

(** A binding as a single place that is overwritten, in the words of
    section 3 ("binding a new one atomically replaces, never coexists
    with, the previous one"): an accepted bind leaves the new client
    alone, a rejected one leaves what was there, unbind leaves nothing,
    an invocation leaves what was there. *)
Definition held_after (accepts : Channel -> bool) (ops : list operation)
    (held : list PluginProxy) : list PluginProxy :=
  fold_left
    (fun h op =>
       match op with
       | do_bind c => if accepts c then [ {| channel_ := c; valid_ := true |} ] else h
       | do_unbind => []
       | do_invoke _ => h
       end)
    ops held.

(** The fallback the specification words for a call-time transport
    failure (sections 7 (b) and 8): the call returns the Default
    Behavior's result for the same arguments. *)
Definition degrades_to_Default (s : SlotProxy PluginProxy) (args : Args) (w : World) : Prop :=
  returned (call s args w) = Ok (default_behavior args).

(** How often the Capability Validator has run. *)
Definition is_validation (e : Event) : bool :=
  match e with validated _ _ => true | _ => false end.

Definition validations (w : World) : nat :=
  List.length (filter is_validation (log w)).

(** How often a remote procedure has been invoked. *)
Definition is_remote_call (e : Event) : bool :=
  match e with remote_call _ _ => true | _ => false end.

Definition remote_calls (w : World) : nat :=
  List.length (filter is_remote_call (log w)).

End Client.

Arguments Event : clear implicits.
Arguments World : clear implicits.

End RemoteCall.

(** A concrete slot, after the scenario of the specification's section 8:
    regions and infill results are integers, a plugin advertises a
    protocol version and version 1 is the one the slot accepts. *)
Module Infill.

Import Plugins RemoteCall.

Definition Validator (version : nat) : bool := Nat.eqb version 1.
Definition toWire (region : Z) : Z := region.
Definition fromWire (response : Z) : Z := response.
Definition DefaultInfill (region : Z) : Z := (2 * region)%Z.

Definition InfillWorld : Type := World nat nat Z Z Z.

#[export] Instance slot : Slot InfillWorld nat PluginProxy Z Z RpcError :=
  modelled_slot Validator toWire fromWire DefaultInfill.

(** Channel 1 leads to a plugin of version 1 that answers a request [q]
    with [q + 100]; every other channel leads to a plugin of version 0. *)
Definition up : InfillWorld :=
  {| advertised := fun c => if Nat.eqb c 1 then 1 else 0;
     exchange := fun c q => if Nat.eqb c 1 then Ok (q + 100)%Z else Err ChannelClosed;
     log := [] |}.

(** The same plugins after the transport has gone down. *)
Definition down : InfillWorld :=
  {| advertised := advertised up;
     exchange := fun _ _ => Err ChannelClosed;
     log := [] |}.

(** The proxy bound to channel 1. *)
Definition bound : SlotProxy PluginProxy :=
  {| plugin_ := Some {| channel_ := 1; valid_ := true |} |}.


End Infill.

(** [Application::startThreadPool] of src/Application.cpp. *)
Module Application.

Section WithThreadPool.

(** [utils/ThreadPool.h] is not among the sources at hand: a [ThreadPool]
    is any type that is constructed from a number of threads
    ([new ThreadPool(nthreads)]) and answers [thread_count()]. *)
Variable ThreadPool : Type.
Variable new_ThreadPool : N -> ThreadPool.
Variable thread_count : ThreadPool -> N.

(** What a call does to the heap. *)
Inductive pool_effect : Type :=
| deleted (pool : ThreadPool)
| created (nthreads : N).

(** [std::thread::hardware_concurrency() - 1]: the operand is an
    [unsigned int], so the difference is taken modulo 2^32 before it is
    stored in the [size_t]. *)
Definition hardware_threads_minus_one (hardware_concurrency : N) : N :=
  Z.to_N ((Z.of_N hardware_concurrency - 1) mod 2 ^ 32).

(** The end of [startThreadPool], from the test against the previous
    pool on. *)
Definition replace_pool (thread_pool_ : option ThreadPool) (nthreads : N)
    : option ThreadPool * list pool_effect :=
  match thread_pool_ with
  | Some pool =>
      if N.eqb (thread_count pool) nthreads
      then (thread_pool_, [])
      else (Some (new_ThreadPool nthreads), [ deleted pool; created nthreads ])
  | None => (Some (new_ThreadPool nthreads), [ created nthreads ])
  end.

(** [Application::startThreadPool]: the member [thread_pool_] after the
    call and what was deleted and created.  [hardware_concurrency] is
    what [std::thread::hardware_concurrency()] returns when it is asked. *)
Definition startThreadPool (thread_pool_ : option ThreadPool) (hardware_concurrency : N)
    (nworkers : Z) : option ThreadPool * list pool_effect :=
  if (nworkers <=? 0)%Z then
    match thread_pool_ with
    | Some _ => (thread_pool_, [])
    | None => replace_pool thread_pool_ (hardware_threads_minus_one hardware_concurrency)
    end
  else replace_pool thread_pool_ (Z.to_N (nworkers - 1)).

End WithThreadPool.

Arguments deleted {ThreadPool} pool.
Arguments created {ThreadPool} nthreads.

End Application.

(* ================================================================== *)
(** * Part II: properties *)
(* ================================================================== *)

Module ProgressFacts.

Import Progress.
Local Open Scope float_scope.

(** ** Comparison of doubles *)

Lemma SFcompare_swap (x y : spec_float) :
  SFcompare y x = option_map CompOpp (SFcompare x y).
Proof.
  destruct x as [sx | sx | | sx mx ex], y as [sy | sy | | sy my ey]; cbn;
    try reflexivity;
    repeat match goal with b : bool |- _ => destruct b end; cbn; try reflexivity.
  - rewrite (Z.compare_antisym ey ex).
    destruct (Z.compare ey ex); cbn; try reflexivity.
    rewrite (Pos.compare_cont_antisym mx my Eq). reflexivity.
  - rewrite (Z.compare_antisym ey ex).
    destruct (Z.compare ey ex); cbn; try reflexivity.
    rewrite (Pos.compare_cont_antisym mx my Eq). reflexivity.
Qed.

Lemma is_nan_false_compare (x : float) :
  is_nan x = false -> SFcompare (Prim2SF x) (Prim2SF x) = Some Eq.
Proof.
  unfold is_nan. rewrite eqb_spec. unfold SFeqb.
  destruct (SFcompare (Prim2SF x) (Prim2SF x)) as [[ | | ] | ]; cbn; congruence.
Qed.

Lemma SFcompare_ordered (x y : spec_float) :
  SFcompare x x = Some Eq -> SFcompare y y = Some Eq -> SFcompare x y <> None.
Proof.
  destruct x, y; cbn; congruence.
Qed.

(** For doubles that are numbers, "not below" is "at or above". *)
Lemma not_below_at_or_above (x y : float) :
  is_nan x = false -> is_nan y = false -> negb (x <? y) = (y <=? x).
Proof.
  intros Hx Hy.
  apply is_nan_false_compare in Hx. apply is_nan_false_compare in Hy.
  rewrite ltb_spec, leb_spec. unfold SFltb, SFleb.
  rewrite (SFcompare_swap (Prim2SF x) (Prim2SF y)).
  pose proof (SFcompare_ordered _ _ Hx Hy) as H.
  destruct (SFcompare (Prim2SF x) (Prim2SF y)) as [[ | | ] | ]; cbn; congruence.
Qed.

(** ** Stages *)

(** Every [at] of the code is in range. *)
Lemma stage_value_in_range (s : Stage) :
  (stage_value s < N_PROGRESS_STAGES)%nat
  /\ List.length times = N_PROGRESS_STAGES
  /\ List.length names = N_PROGRESS_STAGES.
Proof.
  unfold N_PROGRESS_STAGES. destruct s; cbn; repeat split; lia.
Qed.

(** With a stopwatch the function does log: here the end of slicing, with
    a stopwatch that counts its restarts and reports half a second. *)
Example messageProgressStage_with_stopwatch :
  messageProgressStage nat (fun n => (0.5, S n)) initial PARTS (Some 0%nat)
  = (initial, Some 1%nat, [ info_accomplished "slice" 0.5; info_starting "layerparts" ]).
Proof. reflexivity. Qed.

(** ** One report *)

Lemma report_first_skipped_layer (p : statics) (r : layer_report) :
  first_skipped_layer (fst (report p r)) =
  if skipped r
  then match first_skipped_layer p with
       | Some l => Some l
       | None => Some (layer_nr r)
       end
  else None.
Proof.
  unfold report, messageProgressLayer, skipped.
  destruct (total_time r <? skip_threshold r).
  - destruct (first_skipped_layer p) eqn:E; cbn; [ exact E | reflexivity ].
  - destruct (first_skipped_layer p) eqn:E; cbn; [ reflexivity | exact E ].
Qed.

Lemma report_all_snoc (p : statics) (history : list layer_report) (r : layer_report) :
  report_all p (history ++ [ r ]) = fst (report (report_all p history) r).
Proof.
  unfold report_all. rewrite fold_left_app. reflexivity.
Qed.

(** ** The current run of skipped layers *)

Lemma current_run_snoc (history : list layer_report) (r : layer_report) :
  current_run (history ++ [ r ]) =
  if skipped r then current_run history ++ [ r ] else [].
Proof.
  unfold current_run. rewrite rev_app_distr. cbn [rev app skipped_prefix].
  destruct (skipped r); reflexivity.
Qed.

Lemma earliest_skipped_snoc (history : list layer_report) (r : layer_report) :
  earliest_skipped (history ++ [ r ]) =
  if skipped r
  then match earliest_skipped history with
       | Some l => Some l
       | None => Some (layer_nr r)
       end
  else None.
Proof.
  unfold earliest_skipped. rewrite current_run_snoc.
  destruct (skipped r); [ | reflexivity ].
  destruct (current_run history); reflexivity.
Qed.

Lemma first_skipped_layer_history (history : list layer_report) :
  first_skipped_layer (report_all initial history) = earliest_skipped history.
Proof.
  induction history as [ | r history IH ] using rev_ind.
  - reflexivity.
  - rewrite report_all_snoc, report_first_skipped_layer, earliest_skipped_snoc, IH.
    reflexivity.
Qed.

Lemma current_run_all_skipped (history : list layer_report) :
  forallb skipped (current_run history) = true.
Proof.
  unfold current_run. rewrite forallb_forall. intros r Hr.
  rewrite <- in_rev in Hr. revert Hr.
  induction (rev history) as [ | x l IH ]; cbn [skipped_prefix In]; [ tauto | ].
  destruct (skipped x) eqn:E; cbn [In]; [ | tauto ].
  intros [ <- | H ]; [ exact E | exact (IH H) ].
Qed.

Lemma current_run_suffix (history : list layer_report) :
  exists earlier, history = earlier ++ current_run history
    /\ match rev earlier with r :: _ => skipped r = false | [] => True end.
Proof.
  unfold current_run.
  assert (G : forall l, exists rest, l = skipped_prefix l ++ rest
             /\ match rest with r :: _ => skipped r = false | [] => True end).
  { induction l as [ | x l [rest [IH1 IH2]] ]; cbn [skipped_prefix].
    - exists []. split; [ reflexivity | exact I ].
    - destruct (skipped x) eqn:E.
      + exists rest. split; [ cbn [app]; congruence | exact IH2 ].
      + exists (x :: l). split; [ reflexivity | exact E ]. }
  destruct (G (rev history)) as [rest [H1 H2]].
  exists (rev rest). split.
  - rewrite <- rev_app_distr, <- H1, rev_involutive. reflexivity.
  - rewrite rev_involutive. exact H2.
Qed.

(** C9: [Progress::messageProgressStage] called with a null [TimeKeeper]
    pointer does nothing, whatever the stage: it logs no line and leaves
    the static data of [Progress] ([accumulated_times], [total_timing],
    [first_skipped_layer]) as they were; the pointer stays null. *)
Theorem messageProgressStage_null_is_noop :
  forall (TimeKeeper : Type) (restart : TimeKeeper -> float * TimeKeeper)
         (p : statics) (s : Stage),
    let done := messageProgressStage TimeKeeper restart p s None in
    done = (p, None, [])
    /\ snd done = []
    /\ accumulated_times (fst (fst done)) = accumulated_times p
    /\ total_timing (fst (fst done)) = total_timing p
    /\ first_skipped_layer (fst (fst done)) = first_skipped_layer p.
Proof.
  intros TimeKeeper restart p s done. subst done.
  destruct s; cbn [messageProgressStage fst snd]; repeat split.
Qed.

(** C10: over every sequence of [Progress::messageProgressLayer] calls
    from program start, [first_skipped_layer] holds the layer of the
    earliest call in the current run of consecutive skipped layers (time
    below the threshold), and nothing when the last layer was not
    skipped.  One more call [r] sets it only when it is empty, keeps it
    when [r] is skipped too, and empties it exactly when [r] is not
    skipped; for times and thresholds that are numbers, that is exactly
    when the time is at or above the threshold.  The current run is the
    longest end piece of the history whose layers are all skipped. *)
Theorem first_skipped_layer_is_start_of_current_run :
  forall (history : list layer_report) (r : layer_report),
    let before := report_all initial history in
    let after := report_all initial (history ++ [ r ]) in
    first_skipped_layer before = earliest_skipped history
    /\ first_skipped_layer after =
       (if skipped r
        then match first_skipped_layer before with
             | Some l => Some l
             | None => Some (layer_nr r)
             end
        else None)
    /\ (exists earlier,
          history = earlier ++ current_run history
          /\ forallb skipped (current_run history) = true
          /\ match rev earlier with r' :: _ => skipped r' = false | [] => True end)
    /\ (is_nan (total_time r) = false -> is_nan (skip_threshold r) = false ->
        (first_skipped_layer after = None <-> (skip_threshold r <=? total_time r) = true)).
Proof.
  intros history r before after. subst before after.
  split; [ apply first_skipped_layer_history | ].
  split; [ rewrite report_all_snoc; apply report_first_skipped_layer | ].
  split.
  { destruct (current_run_suffix history) as [earlier [H1 H2]].
    exists earlier. repeat split; auto using current_run_all_skipped. }
  intros Ht Hs.
  rewrite report_all_snoc, report_first_skipped_layer.
  rewrite <- (not_below_at_or_above _ _ Ht Hs). unfold skipped.
  destruct (total_time r <? skip_threshold r); cbn.
  - destruct (first_skipped_layer (report_all initial history)); split; congruence.
  - split; reflexivity.
Qed.

(** The theorem above on a history of five layers with the default
    threshold: two slow layers, then layers 2 and 3 skipped, then layer 4
    slow again. *)
Lemma first_skipped_layer_is_start_of_current_run_witness :
  first_skipped_layer (report_all initial [ slow 0%Z; slow 1%Z; fast 2%Z; fast 3%Z ])
    = Some {| value := 2%Z |}
  /\ (first_skipped_layer
        (report_all initial ([ slow 0%Z; slow 1%Z; fast 2%Z; fast 3%Z ] ++ [ slow 4%Z ]))
      = None
      <-> (default_skip_threshold <=? total_time (slow 4%Z)) = true).
Proof.
  pose proof (first_skipped_layer_is_start_of_current_run
                [ slow 0%Z; slow 1%Z; fast 2%Z; fast 3%Z ] (slow 4%Z)) as H.
  cbv zeta in H. destruct H as [H1 [_ [_ H4]]].
  split.
  - rewrite H1. reflexivity.
  - apply H4; reflexivity.
Defined.

End ProgressFacts.

Module PluginsFacts.

Import Plugins.

Section SlotProxy.

Context {World Channel Plugin Args Res Error : Type}.
Context {slot : Slot World Channel Plugin Args Res Error}.

Local Abbreviation Proxy := (SlotProxy Plugin).

(** ** The proxy after a call *)

Lemma proxy_after_forwarded (p : Plugin) (a : Args) (w : World) :
  exists p', proxy_after (forwarded p a w) = {| plugin_ := Some p' |}
             /\ p' = snd (fst (plugin_invoke p a w)).
Proof.
  unfold forwarded. destruct (plugin_invoke p a w) as [[w' p'] r].
  exists p'. split; reflexivity.
Qed.

Lemma proxy_after_defaulted (s : Proxy) (a : Args) (w : World) :
  proxy_after (defaulted s a w) = s.
Proof.
  unfold defaulted. destruct (Default a w) as [w' r]. reflexivity.
Qed.

Lemma call_bound (s : Proxy) (p : Plugin) (a : Args) (w : World) :
  plugin_ s = Some p -> call s a w = forwarded p a w.
Proof.
  intros H. unfold call. rewrite H. reflexivity.
Qed.

Lemma call_unbound (s : Proxy) (a : Args) (w : World) :
  plugin_ s = None -> call s a w = defaulted s a w.
Proof.
  intros H. unfold call. rewrite H. reflexivity.
Qed.

Lemma has_value_call (s : Proxy) (a : Args) (w : World) :
  has_value (proxy_after (call s a w)) = has_value s.
Proof.
  unfold call, has_value at 2.
  destruct (plugin_ s) as [p | ] eqn:E.
  - destruct (proxy_after_forwarded p a w) as [p' [-> _]]. reflexivity.
  - rewrite proxy_after_defaulted. unfold has_value. rewrite E. reflexivity.
Qed.

Lemma unbound_is_default (s : Proxy) :
  plugin_ s = None <-> s = SlotProxy_default.
Proof.
  destruct s as [[p | ]]; unfold SlotProxy_default; cbn; split; congruence.
Qed.



(** C2: a default-constructed proxy (no channel bound, [plugin_] empty)
    returns on every invocation exactly what the Default Behavior returns
    for the same arguments, and stays as it is: a whole sequence of
    invocations yields the Default Behavior's results, one by one. *)
Theorem default_constructed_runs_Default :
  forall (argss : list Args) (w : World),
    calls SlotProxy_default argss w =
      (let (w', results) := defaults argss w in (w', SlotProxy_default, results))
    /\ forall a : Args,
         call SlotProxy_default a w =
           (let (w', r) := Default a w in (w', SlotProxy_default, r)).
Proof.
  intros argss w. split; [ | reflexivity ].
  revert w. induction argss as [ | a rest IH ]; intros w; cbn.
  - reflexivity.
  - unfold defaulted. destruct (Default a w) as [w1 r].
    rewrite IH. destruct (defaults rest w1) as [w2 rs]. reflexivity.
Qed.

(** C5, as the code has it: through a bound proxy the caller gets what
    the Remote Call Client's call yields, a failure included; the Default
    Behavior is not run in its place.  The call leaves the proxy bound,
    and the next invocation is forwarded to the client again. *)
Theorem bound_call_returns_client_outcome :
  forall (s : Proxy) (p : Plugin) (a : Args) (w : World),
    plugin_ s = Some p ->
    call s a w = forwarded p a w
    /\ returned (call s a w) = returned (plugin_invoke p a w)
    /\ world_after (call s a w) = world_after (plugin_invoke p a w)
    /\ exists p', plugin_ (proxy_after (call s a w)) = Some p'
         /\ forall (a2 : Args) (w2 : World),
              call (proxy_after (call s a w)) a2 w2 = forwarded p' a2 w2.
Proof.
  intros s p a w H. rewrite (call_bound s p a w H).
  split; [ reflexivity | ].
  unfold forwarded, returned, world_after, proxy_after.
  destruct (plugin_invoke p a w) as [[w' p'] r]. cbn.
  repeat split. exists p'. split; reflexivity.
Qed.

End SlotProxy.

End PluginsFacts.

Module RemoteCallFacts.

Import Plugins RemoteCall PluginsFacts.

Section Client.

Context {Channel Caps Args Res Request Response : Type}.
Variable Validator : Caps -> bool.
Variable toWire : Args -> Request.
Variable fromWire : Response -> Res.
Variable default_behavior : Args -> Res.

Local Abbreviation W := (World Channel Caps Args Request Response).
Local Abbreviation Proxy := (SlotProxy (PluginProxy (Channel := Channel))).

Let the_slot : Slot W Channel PluginProxy Args Res RpcError :=
  modelled_slot Validator toWire fromWire default_behavior.
#[local] Existing Instance the_slot.

(** ** The modelled client meets what the dispatch rule asks of it *)

Lemma modelled_construct_valid (c : Channel) (w w' : W) (p : PluginProxy) :
  plugin_construct c w = (w', Ok p) -> plugin_valid p = true.
Proof.
  cbn. unfold PluginProxy_construct.
  destruct (Validator (advertised w c)) eqn:E; intros H; [ | discriminate H ].
  injection H as _ <-. reflexivity.
Qed.

Lemma modelled_invoke_valid (p : PluginProxy) (a : Args) (w : W) :
  plugin_valid p = true -> plugin_valid (snd (fst (plugin_invoke p a w))) = true.
Proof.
  cbn. unfold PluginProxy_invoke.
  destruct (exchange w (channel_ p) (toWire a)); cbn; auto.
Qed.

(** ** What each operation adds to the log *)

Lemma log_construct (c : Channel) (w : W) :
  log (fst (PluginProxy_construct Validator c w))
  = validated c (Validator (advertised w c)) :: log w.
Proof.
  unfold PluginProxy_construct. destruct (Validator (advertised w c)); reflexivity.
Qed.

Lemma log_SlotProxy_channel (c : Channel) (w : W) :
  log (fst (SlotProxy_channel c w))
  = validated c (Validator (advertised w c)) :: log w.
Proof.
  unfold SlotProxy_channel. cbn [plugin_construct the_slot modelled_slot].
  rewrite <- log_construct.
  destruct (PluginProxy_construct Validator c w) as [w' [p | e]]; reflexivity.
Qed.

Lemma log_call (s : Proxy) (a : Args) (w : W) :
  log (world_after (call s a w))
  = match plugin_ s with
    | Some p => remote_call (channel_ p) (toWire a)
    | None => default_run a
    end :: log w.
Proof.
  unfold call, forwarded, defaulted. cbn. unfold PluginProxy_invoke, Default_run.
  destruct (plugin_ s) as [p | ]; [ | reflexivity ].
  destruct (exchange w (channel_ p) (toWire a)); reflexivity.
Qed.

Lemma validations_call (s : Proxy) (a : Args) (w : W) :
  validations (world_after (call s a w)) = validations w.
Proof.
  unfold validations. rewrite log_call. destruct (plugin_ s); reflexivity.
Qed.

Lemma validations_calls (argss : list Args) (s : Proxy) (w : W) :
  validations (world_after (calls s argss w)) = validations w.
Proof.
  revert s w. induction argss as [ | a rest IH ]; intros s w; cbn [calls].
  - reflexivity.
  - pose proof (validations_call s a w) as H.
    destruct (call s a w) as [[w1 s1] r]. specialize (IH s1 w1).
    destruct (calls s1 rest w1) as [[w2 s2] rs]. cbn in *. congruence.
Qed.

Lemma modelled_call_keeps_proxy (s : Proxy) (a : Args) (w : W) :
  proxy_after (call s a w) = s.
Proof.
  unfold call, forwarded, defaulted. cbn. unfold PluginProxy_invoke, Default_run.
  destruct s as [[p | ]]; cbn; [ | reflexivity ].
  destruct (exchange w (channel_ p) (toWire a)); reflexivity.
Qed.

Lemma remote_calls_bound (s : Proxy) (p : PluginProxy) (a : Args) (w : W) :
  plugin_ s = Some p -> remote_calls (world_after (call s a w)) = S (remote_calls w).
Proof.
  intros H. unfold remote_calls. rewrite log_call, H. reflexivity.
Qed.

(** C4: binding a channel that the Capability Validator rejects changes
    nothing about the slot.  No Remote Call Client and no proxy is made
    from the channel, the bind is reported as rejected, the slot is the
    proxy it was before, every later invocation does what it would have
    done without the attempt, and a slot that had no binding goes on
    running the Default Behavior.  The attempt itself is all the world
    has seen: one run of the validator. *)
Theorem rejected_bind_changes_nothing :
  forall (c : Channel) (w : W),
    Validator (advertised w c) = false ->
    PluginProxy_construct Validator c w = (record (validated c false) w, Err ValidationRejected)
    /\ SlotProxy_channel c w = (record (validated c false) w, Err ValidationRejected)
    /\ (forall s : Proxy,
          bind Validator toWire fromWire default_behavior s c w
            = (record (validated c false) w, s, Err ValidationRejected)
          /\ forall (a : Args) (w2 : W),
               call (proxy_after (bind Validator toWire fromWire default_behavior s c w)) a w2
               = call s a w2)
    /\ (forall (a : Args) (w2 : W),
          call (proxy_after (bind Validator toWire fromWire default_behavior
                                  SlotProxy_default c w)) a w2
          = (record (default_run a) w2, SlotProxy_default, Ok (default_behavior a))).
Proof.
  intros c w H.
  assert (Hc : PluginProxy_construct Validator c w
               = (record (validated c false) w, Err ValidationRejected)).
  { unfold PluginProxy_construct. rewrite H. reflexivity. }
  assert (Hs : SlotProxy_channel c w = (record (validated c false) w, Err ValidationRejected)).
  { unfold SlotProxy_channel. cbn [plugin_construct the_slot modelled_slot].
    rewrite Hc. reflexivity. }
  assert (Hb : forall s : Proxy,
             bind Validator toWire fromWire default_behavior s c w
             = (record (validated c false) w, s, Err ValidationRejected)).
  { intros s. unfold bind. fold the_slot. rewrite Hs. reflexivity. }
  repeat split; auto.
  - intros a w2. rewrite Hb. reflexivity.
  - intros a w2. rewrite Hb. reflexivity.
Qed.

(** C6: the Capability Validator runs exactly once for a binding, when
    the proxy is constructed from the channel, and never in an
    invocation: neither one call nor a sequence of calls adds a run of
    the validator.  A proxy that was bound forwards every later call to
    the remote procedure, whatever the plugin advertises by then. *)
Theorem validator_runs_once_at_bind :
  forall (c : Channel) (w : W),
    validations (fst (SlotProxy_channel c w)) = S (validations w)
    /\ (forall (s : Proxy) (a : Args) (w2 : W),
          validations (world_after (call s a w2)) = validations w2)
    /\ (forall (s : Proxy) (argss : list Args) (w2 : W),
          validations (world_after (calls s argss w2)) = validations w2)
    /\ (forall (w1 : W) (s : Proxy),
          SlotProxy_channel c w = (w1, Ok s) ->
          forall (a : Args) (w2 : W),
            (exists p, plugin_ s = Some p /\ call s a w2 = forwarded p a w2)
            /\ remote_calls (world_after (call s a w2)) = S (remote_calls w2)
            /\ proxy_after (call s a w2) = s).
Proof.
  intros c w.
  split; [ unfold validations; rewrite log_SlotProxy_channel; reflexivity | ].
  split; [ intros; apply validations_call | ].
  split; [ intros; apply validations_calls | ].
  intros w1 s H a w2.
  assert (Hp : exists p, plugin_ s = Some p).
  { unfold SlotProxy_channel in H.
    destruct (plugin_construct c w) as [w' [p | e]]; [ | discriminate H ].
    injection H as _ <-. exists p. reflexivity. }
  destruct Hp as [p Hp]. split; [ | split ].
  - exists p. split; [ exact Hp | apply call_bound; exact Hp ].
  - apply (remote_calls_bound s p); exact Hp.
  - apply modelled_call_keeps_proxy.
Qed.

(** ** Unbinding, and operations in turn *)




Lemma clients_length (s : Proxy) : (List.length (clients s) <= 1)%nat.
Proof.
  unfold clients. destruct (plugin_ s); cbn; lia.
Qed.

Lemma clients_bind (s : Proxy) (c : Channel) (w : W) :
  clients (proxy_after (bind Validator toWire fromWire default_behavior s c w))
  = (if Validator (advertised w c)
     then [ {| channel_ := c; valid_ := true |} ]
     else clients s)
  /\ advertised (world_after (bind Validator toWire fromWire default_behavior s c w))
     = advertised w.
Proof.
  unfold bind, SlotProxy_channel. cbn [plugin_construct the_slot modelled_slot].
  unfold PluginProxy_construct.
  destruct (Validator (advertised w c)); split; reflexivity.
Qed.

Lemma advertised_call (s : Proxy) (a : Args) (w : W) :
  advertised (world_after (call s a w)) = advertised w.
Proof.
  unfold call, forwarded, defaulted. cbn. unfold PluginProxy_invoke, Default_run.
  destruct (plugin_ s) as [p | ]; [ | reflexivity ].
  destruct (exchange w (channel_ p) (toWire a)); reflexivity.
Qed.

Lemma clients_run (accepts : Channel -> bool) (ops : list operation) :
  forall (s : Proxy) (w : W),
    (forall c, accepts c = Validator (advertised w c)) ->
    clients (snd (run Validator toWire fromWire default_behavior ops s w))
    = held_after accepts ops (clients s).
Proof.
  unfold held_after.
  induction ops as [ | op rest IH ]; intros s w Hacc; [ reflexivity | ].
  cbn [run fold_left].
  destruct (step Validator toWire fromWire default_behavior op s w) as [w' s'] eqn:E.
  destruct op as [c | | a]; cbn [step] in E.
  - destruct (clients_bind s c w) as [Hc Ha].
    unfold proxy_after, world_after in Hc, Ha. rewrite E in Hc, Ha. cbn [fst snd] in Hc, Ha.
    rewrite (IH s' w'), Hc, Hacc; [ reflexivity | ].
    intros c'. rewrite Ha. apply Hacc.
  - injection E as <- <-. rewrite (IH (unbind s) w Hacc). reflexivity.
  - pose proof (modelled_call_keeps_proxy s a w) as Hs.
    pose proof (advertised_call s a w) as Ha.
    unfold proxy_after, world_after, the_slot in Hs, Ha.
    rewrite E in Hs, Ha. cbn [fst snd] in Hs, Ha.
    subst s'. rewrite (IH s w'); [ reflexivity | ].
    intros c'. rewrite Ha. apply Hacc.
Qed.

(** C8: a slot holds at most one Remote Call Client, whatever is done
    to it.  Over any sequence of binds, unbinds and invocations, the
    clients the slot holds are those of a single place that is
    overwritten: a bind that is accepted leaves the client made for the
    new channel and nothing of what was held before, a bind that is
    rejected and an invocation leave what was held, an unbind leaves
    nothing.  So the slot holds one client or none at every point. *)
Theorem binding_is_replaced_never_added :
  forall (ops : list operation) (s : Proxy) (w : W),
    clients (snd (run Validator toWire fromWire default_behavior ops s w))
      = held_after (fun c => Validator (advertised w c)) ops (clients s)
    /\ (List.length (clients (snd (run Validator toWire fromWire default_behavior ops s w)))
        <= 1)%nat
    /\ (forall c : Channel,
          clients (proxy_after (bind Validator toWire fromWire default_behavior s c w))
          = if Validator (advertised w c)
            then [ {| channel_ := c; valid_ := true |} ]
            else clients s)
    /\ clients (unbind s) = []
    /\ (forall (a : Args), clients (proxy_after (call s a w)) = clients s).
Proof.
  intros ops s w.
  split; [ apply clients_run; reflexivity | ].
  split; [ apply clients_length | ].
  split; [ intros c; apply clients_bind | ].
  split; [ reflexivity | ].
  intros a. rewrite modelled_call_keeps_proxy. reflexivity.
Qed.

End Client.

End RemoteCallFacts.

(** ** The results above on the Infill slot *)

Module InfillFacts.

Import Plugins RemoteCall PluginsFacts RemoteCallFacts Infill.

Local Open Scope Z_scope.

(** The scenario of the specification, section 8, as far as the code
    follows it: unbound, the slot returns [DefaultInfill]; bound to
    channel 1, it returns the plugin's answer. *)
Example scenario_unbound :
  returned (call SlotProxy_default 7 up) = Ok (DefaultInfill 7).
Proof. reflexivity. Qed.

Example scenario_bound :
  SlotProxy_channel 1%nat up = (record (validated 1%nat true) up, Ok bound)
  /\ returned (call bound 7 up) = Ok 107.
Proof. split; reflexivity. Qed.



(** C4 on the Infill slot: channel 2 leads to a plugin of version 0. *)
Lemma rejected_bind_changes_nothing_witness :
  Validator (advertised up 2%nat) = false
  /\ SlotProxy_channel 2%nat up = (record (validated 2%nat false) up, Err ValidationRejected)
  /\ forall (a : Z) (w2 : InfillWorld),
       call (proxy_after (bind Validator toWire fromWire DefaultInfill bound 2%nat up)) a w2
       = call bound a w2.
Proof.
  split; [ reflexivity | ].
  destruct (rejected_bind_changes_nothing Validator toWire fromWire DefaultInfill
              2%nat up eq_refl) as [_ [Hs [Hb _]]].
  split; [ exact Hs | ].
  intros a w2. apply (proj2 (Hb bound)).
Defined.

(** C5, against the claim: the proxy is bound to channel 1, the transport
    is down, and the call returns the transport's failure where the
    Default Behavior would have returned 14. *)
Lemma transport_failure_is_not_defaulted :
  plugin_ bound = Some {| channel_ := 1%nat; valid_ := true |}
  /\ exchange down 1%nat (toWire 7) = Err ChannelClosed
  /\ returned (call bound 7 down) = Err (Transport ChannelClosed)
  /\ snd (Default 7 down) = Ok 14
  /\ ~ degrades_to_Default Validator toWire fromWire DefaultInfill bound 7 down.
Proof.
  repeat split. unfold degrades_to_Default. cbn. discriminate.
Qed.

(** C5 as the code has it, on the same call. *)
Lemma bound_call_returns_client_outcome_witness :
  plugin_ bound = Some {| channel_ := 1%nat; valid_ := true |}
  /\ returned (call bound 7 down)
     = returned (plugin_invoke {| channel_ := 1%nat; valid_ := true |} 7 down)
  /\ exists p', plugin_ (proxy_after (call bound 7 down)) = Some p'
       /\ forall (a2 : Z) (w2 : InfillWorld),
            call (proxy_after (call bound 7 down)) a2 w2 = forwarded p' a2 w2.
Proof.
  split; [ reflexivity | ].
  destruct (bound_call_returns_client_outcome
              bound {| channel_ := 1%nat; valid_ := true |} 7 down eq_refl)
    as [_ [Hr [_ Hn]]].
  split; [ exact Hr | exact Hn ].
Defined.

(** C6 on the Infill slot: binding channel 1 runs the validator once, and
    a call made after the plugin has stopped advertising version 1 is
    forwarded all the same. *)
Lemma validator_runs_once_at_bind_witness :
  validations (fst (SlotProxy_channel 1%nat up)) = 1%nat
  /\ forall (a : Z) (w2 : InfillWorld),
       remote_calls (world_after (call bound a w2)) = S (remote_calls w2)
       /\ validations (world_after (call bound a w2)) = validations w2.
Proof.
  destruct (validator_runs_once_at_bind Validator toWire fromWire DefaultInfill 1%nat up)
    as [H1 [H2 [_ H4]]].
  split; [ exact H1 | ].
  intros a w2. split.
  - exact (proj1 (proj2 (H4 _ bound eq_refl a w2))).
  - exact (H2 bound a w2).
Defined.


(** C8 on the Infill slot: bind channel 1, invoke, try channel 2 (which
    is rejected), bind channel 1 again; the slot ends holding the one
    client of the last accepted bind.  After an unbind it holds none. *)
Lemma binding_is_replaced_never_added_witness :
  clients (snd (run Validator toWire fromWire DefaultInfill
                    [ do_bind 1%nat; do_invoke 7; do_bind 2%nat; do_bind 1%nat ]
                    SlotProxy_default up))
  = [ {| channel_ := 1%nat; valid_ := true |} ]
  /\ clients (snd (run Validator toWire fromWire DefaultInfill
                       [ do_bind 1%nat; do_unbind ] SlotProxy_default up))
     = [].
Proof.
  split.
  - rewrite (proj1 (binding_is_replaced_never_added Validator toWire fromWire DefaultInfill
                      [ do_bind 1%nat; do_invoke 7; do_bind 2%nat; do_bind 1%nat ]
                      SlotProxy_default up)).
    reflexivity.
  - rewrite (proj1 (binding_is_replaced_never_added Validator toWire fromWire DefaultInfill
                      [ do_bind 1%nat; do_unbind ] SlotProxy_default up)).
    reflexivity.
Defined.

End InfillFacts.

(** ** More about progress reporting *)

Module ProgressMoreFacts.

Import Progress ProgressFacts.
Local Open Scope float_scope.

(** *** [Progress::init] *)

Lemma init_loop_length (ts : list float) (a : float) :
  List.length (fst (init_loop ts a)) = List.length ts.
Proof.
  revert a. induction ts as [ | t ts IH ]; intros a; cbn.
  - reflexivity.
  - specialize (IH (a + t)). destruct (init_loop ts (a + t)). cbn in *. congruence.
Qed.

Lemma init_loop_total (ts : list float) (a : float) :
  snd (init_loop ts a) = fold_left PrimFloat.add ts a.
Proof.
  revert a. induction ts as [ | t ts IH ]; intros a; cbn.
  - reflexivity.
  - specialize (IH (a + t)). destruct (init_loop ts (a + t)). exact IH.
Qed.

Lemma init_loop_nth (ts : list float) (a : float) (i : nat) :
  (i < List.length ts)%nat ->
  nth i (fst (init_loop ts a)) 0 = fold_left PrimFloat.add (firstn i ts) a.
Proof.
  revert a i. induction ts as [ | t ts IH ]; intros a i Hi; cbn in Hi.
  - lia.
  - cbn [init_loop]. specialize (IH (a + t)).
    destruct (init_loop ts (a + t)) as [rest total]. cbn [fst] in *.
    destruct i as [ | i ]; [ reflexivity | ].
    cbn [nth firstn fold_left]. apply IH. lia.
Qed.

(** X1: after [Progress::init] the entry of [accumulated_times] for a
    stage is the sum, taken in order in double arithmetic from 0, of the
    [times] of the stages before it; [total_timing] is the sum of all of
    [times]; the array keeps its seven entries; [first_skipped_layer] is
    not touched; and a second [init] changes nothing. *)
Theorem init_accumulates_times :
  forall (p : statics) (s : Stage),
    at_ (accumulated_times (init p)) (stage_value s) 0
      = fold_left PrimFloat.add (firstn (stage_value s) times) 0
    /\ total_timing (init p) = fold_left PrimFloat.add times 0
    /\ List.length (accumulated_times (init p)) = N_PROGRESS_STAGES
    /\ first_skipped_layer (init p) = first_skipped_layer p
    /\ init (init p) = init p.
Proof.
  intros p s.
  pose proof (init_loop_nth times 0 (stage_value s)) as Hn.
  pose proof (init_loop_total times 0) as Ht.
  pose proof (init_loop_length times 0) as Hl.
  destruct (stage_value_in_range s) as [Hs [Hlen _]].
  unfold init, at_.
  destruct (init_loop times 0) as [acc total]. cbn [fst snd] in *.
  cbn [accumulated_times total_timing first_skipped_layer].
  repeat split.
  - apply Hn. rewrite Hlen. exact Hs.
  - exact Ht.
  - rewrite Hl. exact Hlen.
Qed.

(** X2: once [Progress::init] has run, the estimate of
    [Progress::calcOverallProgress] is 0 at the start of the first
    stage and 1 at the end of the last, the end of a stage and the start
    of the next give the same estimate, and within a stage the estimate
    at its end is not below the one at its start. *)
Theorem calcOverallProgress_stage_boundaries :
  forall (p : statics) (s : Stage),
    calcOverallProgress (init p) START 0 = 0
    /\ calcOverallProgress (init p) FINISH 1 = 1
    /\ (calcOverallProgress (init p) s 0 <=? calcOverallProgress (init p) s 1) = true
    /\ match next_stage s with
       | Some s' => calcOverallProgress (init p) s 1 = calcOverallProgress (init p) s' 0
       | None => s = FINISH
       end.
Proof.
  intros p s. destruct s; vm_compute; repeat split.
Qed.

(** *** [Progress::messageProgressStage] *)

Section WithTimeKeeper.

Variable TimeKeeper : Type.
Variable restart : TimeKeeper -> float * TimeKeeper.

Lemma stage_message_lines (p : statics) (s : Stage) (tk : TimeKeeper) :
  snd (messageProgressStage TimeKeeper restart p s (Some tk)) =
    match s with
    | START => []
    | _ => [ info_accomplished (at_ names (stage_value s - 1) EmptyString) (fst (restart tk)) ]
    end
    ++ match s with
       | FINISH => []
       | _ => [ info_starting (stage_name s) ]
       end.
Proof.
  unfold messageProgressStage, stage_name. destruct (restart tk) as [elapsed tk'].
  destruct s; reflexivity.
Qed.

(** X3: with a stopwatch, [Progress::messageProgressStage] restarts it
    exactly once and leaves the static data of [Progress] alone,
    whatever the stage.  Its lines chain from one stage to the next:
    the stage announced last by the call for [s] ("Starting ...") is the
    stage reported first, with the time the stopwatch gives, by the call
    for the stage after [s] ("... accomplished").  The call for the last
    stage, FINISH, announces nothing: its one line reports the stage
    before it. *)
Theorem messageProgressStage_chains :
  forall (s : Stage) (p : statics) (tk : TimeKeeper),
    fst (messageProgressStage TimeKeeper restart p s (Some tk))
      = (p, Some (snd (restart tk)))
    /\ match next_stage s with
       | Some s' =>
           last (snd (messageProgressStage TimeKeeper restart p s (Some tk)))
                (info_starting EmptyString)
             = info_starting (stage_name s)
           /\ forall (p' : statics) (tk' : TimeKeeper),
                hd (info_starting EmptyString)
                   (snd (messageProgressStage TimeKeeper restart p' s' (Some tk')))
                = info_accomplished (stage_name s) (fst (restart tk'))
       | None =>
           snd (messageProgressStage TimeKeeper restart p s (Some tk))
             = [ info_accomplished (stage_name EXPORT) (fst (restart tk)) ]
       end.
Proof.
  intros s p tk. split.
  - unfold messageProgressStage. destruct (restart tk). reflexivity.
  - destruct s; cbn [next_stage]; rewrite ?stage_message_lines;
      try (split; [ reflexivity | intros p' tk'; rewrite stage_message_lines; reflexivity ]).
    reflexivity.
Qed.

End WithTimeKeeper.

(** X3 for the step from slicing to the layer parts and for the last
    stage, with a stopwatch that counts its restarts. *)
Lemma messageProgressStage_chains_witness :
  last (snd (messageProgressStage nat (fun n => (0.5, S n)) initial SLICING (Some 0%nat)))
       (info_starting EmptyString)
  = info_starting "slice"
  /\ hd (info_starting EmptyString)
        (snd (messageProgressStage nat (fun n => (0.5, S n)) initial PARTS (Some 1%nat)))
     = info_accomplished "slice" 0.5
  /\ messageProgressStage nat (fun n => (0.5, S n)) initial FINISH (Some 6%nat)
     = (initial, Some 7%nat, [ info_accomplished "export" 0.5 ]).
Proof.
  destruct (messageProgressStage_chains nat (fun n => (0.5, S n)) SLICING initial 0%nat)
    as [_ [H1 H2]].
  destruct (messageProgressStage_chains nat (fun n => (0.5, S n)) FINISH initial 6%nat)
    as [H3 H4].
  split; [ exact H1 | split; [ exact (H2 initial 1%nat) | ] ].
  cbn [next_stage] in H4.
  destruct (messageProgressStage nat (fun n => (0.5, S n)) initial FINISH (Some 6%nat))
    as [x lines].
  cbn [fst snd] in H3, H4. rewrite H3, H4. reflexivity.
Defined.

End ProgressMoreFacts.

(** ** What a layer report sends out *)

Module LayerReportFacts.

Import Progress ProgressFacts.
Local Open Scope float_scope.

(** *** The static data *)

Lemma report_keeps_timing (p : statics) (r : layer_report) :
  accumulated_times (fst (report p r)) = accumulated_times p
  /\ total_timing (fst (report p r)) = total_timing p.
Proof.
  unfold report, messageProgressLayer.
  destruct (total_time r <? skip_threshold r), (first_skipped_layer p); split; reflexivity.
Qed.

Lemma calcOverallProgress_timing (p q : statics) (s : Stage) (x : float) :
  accumulated_times p = accumulated_times q -> total_timing p = total_timing q ->
  calcOverallProgress p s x = calcOverallProgress q s x.
Proof.
  intros Ha Ht. unfold calcOverallProgress. rewrite Ha, Ht. reflexivity.
Qed.

(** X4: no sequence of [Progress::messageProgressLayer] calls changes
    [accumulated_times] or [total_timing], so the estimate of
    [calcOverallProgress] for a stage and a share of it is the same
    before and after any number of layer reports. *)
Theorem layer_reports_keep_timing :
  forall (rs : list layer_report) (p : statics),
    accumulated_times (report_all p rs) = accumulated_times p
    /\ total_timing (report_all p rs) = total_timing p
    /\ forall (s : Stage) (x : float),
         calcOverallProgress (report_all p rs) s x = calcOverallProgress p s x.
Proof.
  assert (G : forall rs p, accumulated_times (report_all p rs) = accumulated_times p
                           /\ total_timing (report_all p rs) = total_timing p).
  { induction rs as [ | r rs IH ]; intros p; [ split; reflexivity | ].
    change (report_all p (r :: rs)) with (report_all (fst (report p r)) rs).
    destruct (IH (fst (report p r))) as [Ha Ht].
    destruct (report_keeps_timing p r) as [Ha' Ht'].
    split; congruence. }
  intros rs p. destruct (G rs p) as [Ha Ht].
  split; [ exact Ha | split; [ exact Ht | ] ].
  intros s x. apply calcOverallProgress_timing; assumption.
Qed.

(** *** The lines of one report *)

Lemma stage_lines_no_other (size padding index : nat) (sts : RegisteredTimes) :
  filter is_info_skipped (stage_lines size padding index sts) = []
  /\ filter is_sendProgress (stage_lines size padding index sts) = []
  /\ filter is_info_layer_export (stage_lines size padding index sts) = [].
Proof.
  revert index. induction sts as [ | t sts IH ]; intros index; cbn.
  - repeat split.
  - apply IH.
Qed.

Lemma details_no_other (sts : RegisteredTimes) :
  filter is_info_skipped (details sts) = []
  /\ filter is_sendProgress (details sts) = []
  /\ filter is_info_layer_export (details sts) = [].
Proof.
  unfold details. destruct (max_stage_size sts).
  - apply stage_lines_no_other.
  - repeat split.
Qed.

(** Everything a layer that is not skipped sends out, in order. *)
Lemma report_output (p : statics) (l : LayerIndex) (n : N) (t : float)
    (sts : RegisteredTimes) (threshold : float) :
  (t <? threshold) = false ->
  snd (messageProgressLayer p l n t sts threshold) =
    match first_skipped_layer p with
    | Some first => [ info_skipped first l ]
    | None => []
    end
    ++ [ messageProgress p EXPORT (int_add (Z.max (value l) 0) 1) (int_of_size_t n);
         info_layer_export l t ]
    ++ details sts.
Proof.
  intros H. unfold messageProgressLayer, details. rewrite H.
  destruct (first_skipped_layer p); reflexivity.
Qed.

(** X5: a skipped layer sends nothing out at all.  A layer that is not
    skipped logs "Skipped time reporting for layers [first...this]"
    exactly when a run of skipped layers came right before it, and the
    first layer it names is the earliest layer of that run; the last
    one it names is the layer now reported. *)
Theorem skipped_line_names_the_run :
  forall (history : list layer_report) (r : layer_report),
    let out := snd (report (report_all initial history) r) in
    if skipped r
    then out = []
    else filter is_info_skipped out =
           match earliest_skipped history with
           | Some first => [ info_skipped first (layer_nr r) ]
           | None => []
           end.
Proof.
  intros history r out. subst out.
  pose proof (first_skipped_layer_history history) as H.
  unfold skipped, report. destruct (total_time r <? skip_threshold r) eqn:E.
  - unfold messageProgressLayer. rewrite E.
    destruct (first_skipped_layer (report_all initial history)); reflexivity.
  - rewrite (report_output _ _ _ _ _ _ E), <- H.
    destruct (details_no_other (stages r)) as [Hd _].
    destruct (first_skipped_layer (report_all initial history));
      rewrite filter_app; cbn; rewrite Hd; reflexivity.
Qed.

Lemma report_progress_and_export (p : statics) (l : LayerIndex) (n : N) (t : float)
    (sts : RegisteredTimes) (threshold : float) :
  (t <? threshold) = false ->
  filter is_sendProgress (snd (messageProgressLayer p l n t sts threshold))
    = [ messageProgress p EXPORT (int_add (Z.max (value l) 0) 1) (int_of_size_t n) ]
  /\ filter is_info_layer_export (snd (messageProgressLayer p l n t sts threshold))
     = [ info_layer_export l t ].
Proof.
  intros H. rewrite (report_output _ _ _ _ _ _ H).
  destruct (details_no_other sts) as [_ [Hp He]].
  destruct (first_skipped_layer p); cbn; rewrite Hp, He; split; reflexivity.
Qed.

(** The sum [max(layer_nr, 0) + 1] stays in the range of [int] for every
    layer number below the largest [int]. *)
Lemma int_add_layer (v : Z) :
  (v < 2147483647)%Z -> int_add (Z.max v 0) 1 = (Z.max v 0 + 1)%Z.
Proof.
  intros H. unfold int_add, int_wrap. cbv zeta.
  rewrite Z.mod_small by lia.
  destruct (Z.ltb_spec (Z.max v 0 + 1) (2 ^ 31)); [ reflexivity | lia ].
Qed.

(** X6: a layer that is not skipped sends exactly one progress message
    and logs exactly one "Layer export" line, with its own number and
    time.  The progress is that of stage EXPORT at the [int] sum
    [max(layer_nr, 0) + 1] out of [total_layers].  For every layer
    number below the largest [int] that is [max(layer_nr, 0) + 1], so
    every layer with a number of 0 or below reports the progress of the
    first layer; at the largest [int] the sum has left the range and the
    progress sent is that of -2147483648. *)
Theorem report_sends_one_progress :
  forall (p : statics) (l : LayerIndex) (n : N) (t : float) (sts : RegisteredTimes)
         (threshold : float),
    (t <? threshold) = false ->
    let out := snd (messageProgressLayer p l n t sts threshold) in
    filter is_sendProgress out
      = [ messageProgress p EXPORT (int_add (Z.max (value l) 0) 1) (int_of_size_t n) ]
    /\ filter is_info_layer_export out = [ info_layer_export l t ]
    /\ ((value l < 2147483647)%Z ->
        filter is_sendProgress out
        = [ messageProgress p EXPORT (Z.max (value l) 0 + 1) (int_of_size_t n) ])
    /\ ((value l <= 0)%Z ->
        filter is_sendProgress out = [ messageProgress p EXPORT 1 (int_of_size_t n) ])
    /\ (value l = 2147483647%Z ->
        filter is_sendProgress out
        = [ messageProgress p EXPORT (-2147483648) (int_of_size_t n) ]).
Proof.
  intros p l n t sts threshold H out. subst out.
  destruct (report_progress_and_export p l n t sts threshold H) as [F1 F2].
  split; [ exact F1 | split; [ exact F2 | ] ].
  rewrite F1. repeat split.
  - intros Hl. rewrite (int_add_layer _ Hl). reflexivity.
  - intros Hl. rewrite int_add_layer by lia.
    replace (Z.max (value l) 0) with 0%Z by lia. reflexivity.
  - intros ->. reflexivity.
Qed.

(** X6 on layer -2 of a print with a raft, against the default
    threshold, and on the layer with the largest [int] as its number. *)
Lemma report_sends_one_progress_witness :
  filter is_sendProgress (snd (report (init initial) (slow (-2))))
    = [ messageProgress (init initial) EXPORT 1 5 ]
  /\ filter is_info_layer_export (snd (report (init initial) (slow (-2))))
     = [ info_layer_export {| value := -2 |} 0.25 ]
  /\ filter is_sendProgress (snd (report (init initial) (slow 2147483647)))
     = [ messageProgress (init initial) EXPORT (-2147483648) 5 ].
Proof.
  destruct (report_sends_one_progress (init initial) {| value := -2 |} 5 0.25
              (stages (slow 0)) default_skip_threshold eq_refl) as [_ [H2 [_ [H4 _]]]].
  destruct (report_sends_one_progress (init initial) {| value := 2147483647 |} 5 0.25
              (stages (slow 0)) default_skip_threshold eq_refl) as [_ [_ [_ [_ H5]]]].
  split; [ apply H4; cbn; lia | split; [ exact H2 | apply H5; reflexivity ] ].
Defined.

(** *** The per-stage lines *)

Lemma fold_left_max_widest (sts : RegisteredTimes) (a : nat) :
  fold_left (fun m u => Nat.max m (String.length (stage u))) sts a
  = Nat.max a (widest_name sts).
Proof.
  unfold widest_name.
  revert a. induction sts as [ | t sts IH ]; intros a; cbn [fold_left fold_right].
  - lia.
  - rewrite IH. lia.
Qed.

Lemma max_stage_size_widest (sts : RegisteredTimes) :
  max_stage_size sts = match sts with [] => None | _ => Some (widest_name sts) end.
Proof.
  destruct sts as [ | t sts ]; [ reflexivity | ].
  unfold max_stage_size. rewrite fold_left_max_widest. reflexivity.
Qed.

Lemma widest_name_bound (sts : RegisteredTimes) (t : RegisteredTime) :
  In t sts -> (String.length (stage t) <= widest_name sts)%nat.
Proof.
  unfold widest_name.
  induction sts as [ | u sts IH ]; cbn [In fold_right]; [ tauto | ].
  intros [ -> | H ]; [ lia | specialize (IH H); lia ].
Qed.

Lemma stage_time_lines_app (a b : list output) :
  stage_time_lines (a ++ b) = stage_time_lines a ++ stage_time_lines b.
Proof.
  induction a as [ | o a IH ]; [ reflexivity | ].
  destruct o; cbn; rewrite IH; reflexivity.
Qed.

Lemma stage_time_lines_stage_lines (size padding index : nat) (sts : RegisteredTimes) :
  stage_time_lines (stage_lines size padding index sts)
  = map (fun '(i, t) => ((i <? size - 1)%nat, stage t,
                         (padding - String.length (stage t))%nat, duration t))
        (combine (seq index (List.length sts)) sts).
Proof.
  revert index. induction sts as [ | t sts IH ]; intros index; cbn.
  - reflexivity.
  - rewrite IH. reflexivity.
Qed.

Lemma corners (size index : nat) (sts : RegisteredTimes) :
  (index + List.length sts = size)%nat ->
  map (fun '(i, _) => (i <? size - 1)%nat) (combine (seq index (List.length sts)) sts)
  = repeat true (List.length sts - 1) ++ match sts with [] => [] | _ => [ false ] end.
Proof.
  revert index. induction sts as [ | t sts IH ]; intros index H.
  - reflexivity.
  - cbn [List.length seq combine map] in *.
    rewrite (IH (S index)) by lia.
    destruct sts as [ | u sts ]; cbn [List.length repeat app Nat.sub] in *.
    + replace (index <? size - 1)%nat with false; [ reflexivity | ].
      symmetry. apply Nat.ltb_ge. lia.
    + replace (index <? size - 1)%nat with true.
      * rewrite Nat.sub_0_r. reflexivity.
      * symmetry. apply Nat.ltb_lt. lia.
Qed.

(** X7: the per-stage lines of a layer that is not skipped.  There is
    one line per registered stage, in order, with that stage's name and
    duration; every name is padded to the width of the widest name, so
    the durations line up; and every line but the last is drawn with the
    branch that continues, the last with the one that ends. *)
Theorem stage_lines_line_up :
  forall (p : statics) (l : LayerIndex) (n : N) (t : float) (sts : RegisteredTimes)
         (threshold : float),
    (t <? threshold) = false ->
    let lines := stage_time_lines (snd (messageProgressLayer p l n t sts threshold)) in
    map (fun '(_, name, _, seconds) => (name, seconds)) lines
      = map (fun u => (stage u, duration u)) sts
    /\ Forall (fun '(_, name, padding, _) =>
                 (String.length name + padding = widest_name sts)%nat) lines
    /\ map (fun '(more_follow, _, _, _) => more_follow) lines
       = repeat true (List.length sts - 1) ++ match sts with [] => [] | _ => [ false ] end.
Proof.
  intros p l n t sts threshold H lines. subst lines.
  rewrite (report_output _ _ _ _ _ _ H), stage_time_lines_app.
  replace (stage_time_lines match first_skipped_layer p with
                            | Some first => [ info_skipped first l ]
                            | None => []
                            end) with (@nil (bool * string * nat * float))
    by (destruct (first_skipped_layer p); reflexivity).
  unfold messageProgress. cbn [app stage_time_lines].
  unfold details. rewrite max_stage_size_widest.
  destruct sts as [ | u sts ]; [ repeat split; constructor | ].
  set (all := u :: sts). rewrite stage_time_lines_stage_lines.
  split; [ | split ].
  - rewrite map_map.
    assert (G : forall i (xs : RegisteredTimes),
              map (fun x : nat * RegisteredTime =>
                     let '(_, name, _, seconds) :=
                       (let '(i0, t0) := x in
                        ((i0 <? List.length all - 1)%nat, stage t0,
                         (widest_name all - String.length (stage t0))%nat, duration t0)) in
                     (name, seconds))
                  (combine (seq i (List.length xs)) xs)
              = map (fun u0 => (stage u0, duration u0)) xs).
    { intros i xs. revert i. induction xs as [ | x xs IH ]; intros i; cbn;
        [ reflexivity | rewrite IH; reflexivity ]. }
    apply G.
  - apply Forall_forall. intros [[[more name] padding] seconds] Hin.
    apply in_map_iff in Hin. destruct Hin as [[i x] [Hx Hin]].
    apply in_combine_r in Hin. apply widest_name_bound in Hin.
    revert Hx Hin. generalize (widest_name all). intros width Hx Hin.
    injection Hx as _ <- <- _. lia.
  - rewrite map_map.
    transitivity (map (fun '(i, _) => (i <? List.length all - 1)%nat)
                      (combine (seq 0 (List.length all)) all)).
    + apply map_ext. intros [i x]. reflexivity.
    + exact (corners (List.length all) 0 all eq_refl).
Qed.

(** X7 on a layer with the stages "walls" and "infill". *)
Lemma stage_lines_line_up_witness :
  stage_time_lines (snd (report (init initial) (slow 4)))
  = [ (true, "walls"%string, 1%nat, 0.2); (false, "infill"%string, 0%nat, 0.05) ]
  /\ Forall (fun '(_, name, padding, _) => (String.length name + padding = 6)%nat)
            (stage_time_lines (snd (report (init initial) (slow 4)))).
Proof.
  split; [ reflexivity | ].
  exact (proj1 (proj2 (stage_lines_line_up (init initial) {| value := 4 |} 5 0.25
                         (stages (slow 4)) default_skip_threshold eq_refl))).
Defined.

(** *** A whole history of reports *)

Lemma messageProgress_timing (p q : statics) (s : Stage) (a b : Z) :
  accumulated_times p = accumulated_times q -> total_timing p = total_timing q ->
  messageProgress p s a b = messageProgress q s a b.
Proof.
  intros Ha Ht. unfold messageProgress. f_equal.
  apply calcOverallProgress_timing; assumption.
Qed.

Lemma report_output_skipped (p : statics) (r : layer_report) :
  skipped r = true -> snd (report p r) = [].
Proof.
  unfold skipped, report, messageProgressLayer. intros ->.
  destruct (first_skipped_layer p); reflexivity.
Qed.

(** X12: over any sequence of [Progress::messageProgressLayer] calls,
    from any state, the "Layer export" lines logged are exactly the
    layers that were not skipped, in the order reported, each with its
    number and time; and the progress messages sent are exactly one for
    each of those layers, in the same order, each the progress of stage
    EXPORT at the [int] sum [max(layer_nr, 0) + 1] out of [total_layers]
    under the timing table the sequence started with. *)
Theorem history_exports_unskipped_layers :
  forall (rs : list layer_report) (p : statics),
    let reported := filter (fun r => negb (skipped r)) rs in
    filter is_info_layer_export (report_all_output p rs)
      = map (fun r => info_layer_export (layer_nr r) (total_time r)) reported
    /\ filter is_sendProgress (report_all_output p rs)
       = map (fun r => messageProgress p EXPORT (int_add (Z.max (value (layer_nr r)) 0) 1)
                                       (int_of_size_t (total_layers r)))
             reported.
Proof.
  cbv zeta. induction rs as [ | r rs IH ]; intros p; [ split; reflexivity | ].
  cbn [report_all_output filter]. rewrite !filter_app.
  destruct (IH (fst (report p r))) as [IH1 IH2].
  destruct (report_keeps_timing p r) as [Ha Ht].
  rewrite IH1, IH2. clear IH IH1 IH2.
  assert (M : forall rs',
             map (fun r0 => messageProgress (fst (report p r)) EXPORT
                              (int_add (Z.max (value (layer_nr r0)) 0) 1)
                              (int_of_size_t (total_layers r0))) rs'
             = map (fun r0 => messageProgress p EXPORT
                                (int_add (Z.max (value (layer_nr r0)) 0) 1)
                                (int_of_size_t (total_layers r0))) rs').
  { intros rs'. apply map_ext. intros r0. apply messageProgress_timing; assumption. }
  rewrite M. clear M.
  destruct (skipped r) eqn:E; cbn [negb map].
  - rewrite (report_output_skipped p r E). split; reflexivity.
  - assert (E' : (total_time r <? skip_threshold r) = false) by exact E.
    destruct (report_progress_and_export p (layer_nr r) (total_layers r) (total_time r)
                (stages r) (skip_threshold r) E') as [H1 H2].
    unfold report. rewrite H1, H2. split; reflexivity.
Qed.

End LayerReportFacts.

(** ** The thread pool *)

Module ApplicationFacts.

Import Application.

Section WithThreadPool.

Variable ThreadPool : Type.
Variable new_ThreadPool : N -> ThreadPool.
Variable thread_count : ThreadPool -> N.

Lemma replace_pool_cases (pool : option ThreadPool) (k : N) :
  (replace_pool ThreadPool new_ThreadPool thread_count pool k = (pool, [])
   /\ exists old, pool = Some old /\ thread_count old = k)
  \/ replace_pool ThreadPool new_ThreadPool thread_count pool k
     = (Some (new_ThreadPool k),
        match pool with Some old => [ deleted old ] | None => [] end ++ [ created k ]).
Proof.
  unfold replace_pool. destruct pool as [old | ]; [ | right; reflexivity ].
  destruct (N.eqb (thread_count old) k) eqn:E; [ left | right; reflexivity ].
  split; [ reflexivity | ]. exists old. split; [ reflexivity | apply N.eqb_eq, E ].
Qed.

Lemma startThreadPool_some (pool : option ThreadPool) (hc : N) (n : Z) :
  fst (startThreadPool ThreadPool new_ThreadPool thread_count pool hc n) <> None.
Proof.
  unfold startThreadPool, replace_pool.
  destruct (n <=? 0)%Z, pool as [old | ]; cbn [fst]; try discriminate;
    destruct (N.eqb (thread_count old) (Z.to_N (n - 1))); discriminate.
Qed.

(** X8: after [Application::startThreadPool] there is always a thread
    pool, whatever the arguments.  Either the call did nothing and the
    pool is the one from before, or it deleted the previous pool (when
    there was one) and then created exactly one new pool: a pool that is
    replaced is always deleted, and a pool that is kept never is. *)
Theorem startThreadPool_leaves_one_pool :
  forall (pool : option ThreadPool) (hardware_concurrency : N) (nworkers : Z),
    let after := startThreadPool ThreadPool new_ThreadPool thread_count
                                 pool hardware_concurrency nworkers in
    fst after <> None
    /\ ((snd after = [] /\ fst after = pool)
        \/ exists k, fst after = Some (new_ThreadPool k)
             /\ snd after
                = match pool with Some old => [ deleted old ] | None => [] end
                  ++ [ created k ]).
Proof.
  intros pool hc n after. subst after. unfold startThreadPool.
  destruct (n <=? 0)%Z.
  - destruct pool as [old | ].
    + split; [ discriminate | left; split; reflexivity ].
    + split; [ discriminate | right ]. eexists. split; reflexivity.
  - destruct (replace_pool_cases pool (Z.to_N (n - 1))) as [[H [old [-> _]]] | H];
      rewrite H; cbn [fst snd].
    + split; [ discriminate | left; split; reflexivity ].
    + split; [ discriminate | right ]. eexists. split; reflexivity.
Qed.

(** X10: called with no worker count ([nworkers <= 0]),
    [startThreadPool] keeps an existing pool as it is, whatever its size
    and whatever the hardware reports.  When there is no pool yet it
    creates one with [hardware_concurrency() - 1] threads; the
    subtraction is unsigned, so when the hardware reports 0 (the value
    [std::thread::hardware_concurrency] gives when it cannot tell) the
    pool is asked for 4294967295 threads. *)
Theorem startThreadPool_default_count :
  forall (hardware_concurrency : N) (nworkers : Z),
    (nworkers <= 0)%Z -> (hardware_concurrency < 2 ^ 32)%N ->
    (forall pool : ThreadPool,
       startThreadPool ThreadPool new_ThreadPool thread_count
                       (Some pool) hardware_concurrency nworkers
       = (Some pool, []))
    /\ startThreadPool ThreadPool new_ThreadPool thread_count None hardware_concurrency nworkers
       = (let k := if N.eqb hardware_concurrency 0 then 4294967295%N
                   else (hardware_concurrency - 1)%N in
          (Some (new_ThreadPool k), [ created k ])).
Proof.
  intros hc n Hn Hhc. unfold startThreadPool.
  apply Z.leb_le in Hn. rewrite Hn. split; [ reflexivity | ].
  cbv zeta. unfold replace_pool, hardware_threads_minus_one.
  destruct (N.eqb hc 0) eqn:E.
  - apply N.eqb_eq in E. subst hc. reflexivity.
  - apply N.eqb_neq in E.
    replace (Z.to_N ((Z.of_N hc - 1) mod 2 ^ 32)) with (hc - 1)%N; [ reflexivity | ].
    rewrite Z.mod_small by lia. lia.
Qed.

Section CountIsKept.

(** A pool constructed for a number of threads reports that number. *)
Hypothesis thread_count_new : forall k : N, thread_count (new_ThreadPool k) = k.

(** X9: for a pool type whose [thread_count()] is the number it was
    constructed with: called with [nworkers > 0], [startThreadPool]
    leaves a pool of [nworkers - 1] threads (one is the main thread);
    and calling it again with the same arguments keeps that pool, with
    nothing deleted or created, whatever the hardware reports by then. *)
Theorem startThreadPool_count_and_repeat :
  forall (pool : option ThreadPool) (hc hc' : N) (nworkers : Z),
    ((0 < nworkers)%Z ->
     exists tp,
       fst (startThreadPool ThreadPool new_ThreadPool thread_count pool hc nworkers) = Some tp
       /\ thread_count tp = Z.to_N (nworkers - 1))
    /\ startThreadPool ThreadPool new_ThreadPool thread_count
         (fst (startThreadPool ThreadPool new_ThreadPool thread_count pool hc nworkers))
         hc' nworkers
       = (fst (startThreadPool ThreadPool new_ThreadPool thread_count pool hc nworkers), []).
Proof.
  intros pool hc hc' n.
  assert (C : (0 < n)%Z ->
              exists tp,
                fst (startThreadPool ThreadPool new_ThreadPool thread_count pool hc n) = Some tp
                /\ thread_count tp = Z.to_N (n - 1)).
  { intros Hn. unfold startThreadPool.
    replace (n <=? 0)%Z with false by (symmetry; apply Z.leb_gt; exact Hn).
    destruct (replace_pool_cases pool (Z.to_N (n - 1))) as [[H [old [-> Hc]]] | H];
      rewrite H; cbn [fst].
    - exists old. split; [ reflexivity | exact Hc ].
    - eexists. split; [ reflexivity | apply thread_count_new ]. }
  split; [ exact C | ].
  destruct (n <=? 0)%Z eqn:E.
  - pose proof (startThreadPool_some pool hc n) as Hsome.
    unfold startThreadPool at 1. rewrite E.
    destruct (fst (startThreadPool ThreadPool new_ThreadPool thread_count pool hc n));
      [ reflexivity | contradiction ].
  - apply Z.leb_gt in E. destruct (C E) as [tp [Htp Hc]]. rewrite Htp.
    unfold startThreadPool, replace_pool.
    replace (n <=? 0)%Z with false by (symmetry; apply Z.leb_gt; exact E).
    rewrite Hc, N.eqb_refl. reflexivity.
Qed.

End CountIsKept.

End WithThreadPool.

(** X9 with a pool that is just its number of threads:
    [startThreadPool(4)] twice. *)
Lemma startThreadPool_count_and_repeat_witness :
  (exists tp, fst (startThreadPool N id id None 8 4) = Some tp /\ id tp = 3%N)
  /\ startThreadPool N id id (fst (startThreadPool N id id None 8 4)) 16 4
     = (Some 3%N, []).
Proof.
  destruct (startThreadPool_count_and_repeat N id id (fun k => eq_refl) None 8 16 4)
    as [H1 H2].
  split; [ apply H1; reflexivity | exact H2 ].
Defined.

(** X10 when the hardware reports 0 threads and no pool exists. *)
Lemma startThreadPool_default_count_witness :
  startThreadPool N id id None 0 0 = (Some 4294967295%N, [ created 4294967295%N ])
  /\ startThreadPool N id id (Some 3%N) 0 0 = (Some 3%N, []).
Proof.
  destruct (startThreadPool_default_count N id id 0 0 ltac:(reflexivity) ltac:(reflexivity))
    as [H1 H2].
  split; [ exact H2 | apply H1 ].
Defined.

End ApplicationFacts.

(** ** A bound proxy over a sequence of calls *)

Module BoundProxyFacts.

Import Plugins PluginsFacts.

Section SlotProxy.

Context {World Channel Plugin Args Res Error : Type}.
Context {slot : Slot World Channel Plugin Args Res Error}.

(** X11: through a proxy that holds a client, a sequence of invocations
    is the client invoked on the same arguments in turn, each time as
    the invocation before left it: the results are the client's, in
    order, the Default Behavior is never run, and the proxy ends up
    holding the client as the last invocation left it. *)
Theorem bound_calls_are_client_runs :
  forall (argss : list Args) (s : SlotProxy Plugin) (p : Plugin) (w : World),
    plugin_ s = Some p ->
    calls s argss w =
      (let '(w', p', results) := client_runs p argss w in
       (w', {| plugin_ := Some p' |}, results)).
Proof.
  induction argss as [ | a rest IH ]; intros s p w H.
  - destruct s as [q]. cbn in H. subst q. reflexivity.
  - cbn [calls client_runs]. rewrite (call_bound s p a w H). unfold forwarded.
    destruct (plugin_invoke p a w) as [[w1 p1] r].
    rewrite (IH {| plugin_ := Some p1 |} p1 w1 eq_refl).
    destruct (client_runs p1 rest w1) as [[w2 p2] rs]. reflexivity.
Qed.

End SlotProxy.

(** X11 on the Infill slot: three regions through the proxy bound to
    channel 1. *)
Lemma bound_calls_are_client_runs_witness :
  snd (calls (slot := Infill.slot) Infill.bound [ 1; 2; 3 ]%Z Infill.up)
  = [ Ok 101; Ok 102; Ok 103 ]%Z.
Proof.
  rewrite (bound_calls_are_client_runs (slot := Infill.slot) [ 1; 2; 3 ]%Z Infill.bound
             {| RemoteCall.channel_ := 1; RemoteCall.valid_ := true |} Infill.up eq_refl).
  reflexivity.
Defined.

End BoundProxyFacts.
